(** * creatUINO: the SD-card preparation script

    The development follows [creatUINO.py]: the class [SDCardWriter] with
    its initializer, [argparser], [_load_mapfile] and [main], and the
    top-level [if __name__ == '__main__'] guard.  The script talks to three
    collaborators that live outside the repository: the file system
    (through [pathlib]), the [logging] module and [argparse].  Each gets a
    small model below; the methods of the class are then written in a
    state-and-exception monad over the resulting process state. *)

From Stdlib Require Import ZArith Ascii String List Bool Lia.
From stdpp Require Import base option list strings gmap.
From Equations Require Import Equations.

Local Open Scope Z_scope.

(** ** Strings *)

Module Str.

(** [str.split(sep)] for a one-character separator: the pieces between
    the separators, empty pieces included; the empty string splits into
    one empty piece. *)
Fixpoint split (sep : ascii) (s : string) : list string :=
  match s with
  | EmptyString => [EmptyString]
  | String c rest =>
      if Ascii.eqb c sep then EmptyString :: split sep rest
      else match split sep rest with
           | [] => [String c EmptyString]
           | w :: ws => String c w :: ws
           end
  end.

Definition startswith (c : ascii) (s : string) : bool :=
  match s with
  | EmptyString => false
  | String d _ => Ascii.eqb c d
  end.

(** Number of leading occurrences of [c]. *)
Fixpoint leading (c : ascii) (s : string) : nat :=
  match s with
  | EmptyString => O
  | String d rest => if Ascii.eqb c d then S (leading c rest) else O
  end.

End Str.

(** ** Paths, after [pathlib.PurePosixPath]

    A path is the tuple [Path(s).parts]: the root ("/" or "//") when the
    string is absolute, then the components; empty components and "." are
    dropped, ".." is kept.  The empty tuple is the current directory. *)

Definition path := list string.

Definition slash : ascii := "/"%char.

Definition is_root (part : string) : bool :=
  String.eqb part "/" || String.eqb part "//".

Definition root_of (s : string) : list string :=
  match Str.leading slash s with
  | O => []
  | 2%nat => ["//"]
  | _ => ["/"]
  end.

Definition keep_part (part : string) : bool :=
  negb (String.eqb part EmptyString) && negb (String.eqb part ".").

Definition Path (s : string) : path :=
  root_of s ++ filter (λ part, keep_part part = true) (Str.split slash s).

(** [Path.parent]: the path without its last component; the root and the
    current directory are their own parents. *)
Definition parent (p : path) : path :=
  match p with
  | [r] => if is_root r then [r] else []
  | _ => removelast p
  end.

(** ** The file system

    A finite map from paths to nodes.  A directory carries the one
    permission the script can run into: whether entries may be created in
    it. *)

Inductive node :=
| File (content : string)
| Dir (writable : bool).

Abbreviation filesystem := (gmap path node).

Inductive OSError :=
| FileNotFoundError
| FileExistsError
| NotADirectoryError
| PermissionError.

#[global] Instance OSError_eq_dec : EqDecision OSError.
Proof. solve_decision. Defined.

#[global] Instance node_eq_dec : EqDecision node.
Proof. solve_decision. Defined.

(** [Path.exists()]: whether [os.stat] finds the path; files and
    directories both count.  The map gives the two answers of [exists()];
    a [stat] that fails for another reason than a missing entry, which
    [exists()] re-raises, has no counterpart here, and what is proved of
    [exists_] is proved of the calls that return. *)
Definition exists_ (fs : filesystem) (p : path) : bool :=
  match fs !! p with
  | Some _ => true
  | None => false
  end.

(** [Path.is_dir()]. *)
Definition is_dir (fs : filesystem) (p : path) : bool :=
  match fs !! p with
  | Some (Dir _) => true
  | _ => false
  end.

(** [os.mkdir(p)]: an existing entry is reported first, then the state of
    the parent.  The new directory is entered as writable: the mode that the
    process's umask leaves it with is not followed, nor are the errors
    besides these four. *)
Definition os_mkdir (fs : filesystem) (p : path) : OSError + filesystem :=
  match fs !! p with
  | Some _ => inl FileExistsError
  | None =>
      match fs !! parent p with
      | None => inl FileNotFoundError
      | Some (File _) => inl NotADirectoryError
      | Some (Dir false) => inl PermissionError
      | Some (Dir true) => inr (<[p := Dir true]> fs)
      end
  end.

(** The [except OSError] clause of [Path.mkdir]: the error is swallowed only
    when [exist_ok] is set and the path is a directory. *)
Definition except_OSError (fs : filesystem) (p : path) (exist_ok : bool)
    (e : OSError) : option OSError * filesystem :=
  if negb exist_ok || negb (is_dir fs p) then (Some e, fs) else (None, fs).

(** [Path.mkdir(parents, exist_ok)], as [pathlib] writes it: try
    [os.mkdir]; when that raises [FileNotFoundError] and [parents] is set
    (and the path is not its own parent), make the parent with
    [parents=True, exist_ok=True] and call [mkdir] again with
    [parents=False]; every other [OSError] goes to [except_OSError].  The
    result is the error raised, if any, and the file system as the call
    leaves it. *)
Equations? mkdir (fs : filesystem) (p : path) (parents exist_ok : bool)
  : option OSError * filesystem by wf (length p) lt :=
  mkdir fs p parents exist_ok with os_mkdir fs p => {
    | inr fs' := (None, fs');
    | inl FileNotFoundError with parents => {
        | false := (Some FileNotFoundError, fs);
        | true with decide (parent p = p) => {
            | left _ := (Some FileNotFoundError, fs);
            | right Hne with mkdir fs (parent p) true true => {
                | (Some e, fs1) := (Some e, fs1);
                | (None, fs1) with os_mkdir fs1 p => {
                    | inr fs2 := (None, fs2);
                    | inl FileNotFoundError := (Some FileNotFoundError, fs1);
                    | inl e := except_OSError fs1 p exist_ok e } } } };
    | inl e := except_OSError fs p exist_ok e }.
Proof.
  (* the parent of a path that is not its own parent is shorter *)
  destruct p as [|a [|b q]].
  - done.
  - cbn in *. destruct (is_root a); [done | cbn; lia].
  - unfold parent. rewrite removelast_firstn_len, length_take. cbn [length]. lia.
Qed.

(** ** Logging

    The module-level logger [log]: a level, a number of handlers, and the
    records the handlers have written.  The formatter is ['%(message)s'],
    so a record is its level and its message. *)

Inductive level := DEBUG | INFO | WARNING | ERROR.

Definition level_no (l : level) : Z :=
  match l with DEBUG => 10 | INFO => 20 | WARNING => 30 | ERROR => 40 end.

Definition getLevelName (l : level) : string :=
  match l with
  | DEBUG => "DEBUG" | INFO => "INFO" | WARNING => "WARNING" | ERROR => "ERROR"
  end.

(** [loglevel = logging.ERROR] *)
Definition loglevel : level := ERROR.

(** ** Command line

    What [parser.parse_args()] hands back: the fields of the [Namespace],
    named as the script reads them ([args.mapfile], ...). *)

Record Namespace := {
  args_overwrite : bool;
  args_parallel_jobs : Z;
  args_mapfile : string;
  args_output_dir : string;
  args_recode : bool;
  args_verbose : nat;
  args_ffmpeg : option string;
  args_ffmpeg_options : string }.

(** The defaults of the argument definitions; [cpu_count] stands for
    [multiprocessing.cpu_count()]. *)
Definition default_args (cpu_count : Z) : Namespace :=
  {| args_overwrite := false;
     args_parallel_jobs := cpu_count;
     args_mapfile := "map.csv";
     args_output_dir := "./out";
     args_recode := false;
     args_verbose := 0;
     args_ffmpeg := None;
     args_ffmpeg_options := "-vsync 0 -codec:a libmp3lame -b:a 192K -vn -sn -dn" |}.

(** The three ways [parse_args] ends: it returns a namespace; [argparse]
    ends the process itself ([SystemExit]: status 2 on a usage error, 0
    after [--help]); or some other exception escapes it. *)
Inductive parse_args_outcome :=
| Parsed (args : Namespace)
| Exited (code : Z)
| Failed (error : string).

(** ** Process state *)

(** A log message: formatted text, or one of the two debug messages built
    from [repr] of a Python value, kept as the value. *)
Inductive log_msg :=
| Text (s : string)
| ArgvRepr (argv : list string)
| NamespaceRepr (args : Namespace).

(** What the process does to the outside.  [Open] and [Spawn] are the
    effects a map reader and an encoder run would have. *)
Inductive event :=
| Logged (lvl : level) (msg : log_msg)
| Printed (s : string)
| Stat (p : path)
| Mkdir (p : path)
| Open (p : path)
| Spawn (cmd : string).

(** The attributes of the [SDCardWriter] instance.  [config] and [recode]
    are class attributes with a default; the others exist only once
    [argparser] has assigned them.  An element of [files_to_encode] is a
    2-tuple, source file first, target file second. *)
Record attributes := {
  self_config : option (list (string * string));
  self_recode : bool;
  self_overwrite : option bool;
  self_ffmpeg_bin : option (option string);
  self_ffmpeg_options : option string;
  self_jobs_max : option Z;
  self_files_to_encode : option (list (string * string)) }.

Definition class_attributes : attributes :=
  {| self_config := None;
     self_recode := false;
     self_overwrite := None;
     self_ffmpeg_bin := None;
     self_ffmpeg_options := None;
     self_jobs_max := None;
     self_files_to_encode := None |}.

Record process := {
  fs : filesystem;
  sys_argv : list string;        (* sys.argv[1:] *)
  log_level : level;             (* log.level *)
  log_handlers : nat;            (* len(log.handlers) *)
  trace : list event;
  self : attributes }.

Definition with_fs (f : filesystem) (w : process) : process :=
  {| fs := f; sys_argv := sys_argv w; log_level := log_level w;
     log_handlers := log_handlers w; trace := trace w; self := self w |}.

Definition with_log_level (l : level) (w : process) : process :=
  {| fs := fs w; sys_argv := sys_argv w; log_level := l;
     log_handlers := log_handlers w; trace := trace w; self := self w |}.

Definition with_log_handlers (n : nat) (w : process) : process :=
  {| fs := fs w; sys_argv := sys_argv w; log_level := log_level w;
     log_handlers := n; trace := trace w; self := self w |}.

Definition with_trace (t : list event) (w : process) : process :=
  {| fs := fs w; sys_argv := sys_argv w; log_level := log_level w;
     log_handlers := log_handlers w; trace := t; self := self w |}.

Definition with_self (a : attributes) (w : process) : process :=
  {| fs := fs w; sys_argv := sys_argv w; log_level := log_level w;
     log_handlers := log_handlers w; trace := trace w; self := a |}.

(** ** The monad: state plus Python exceptions *)

Inductive exn :=
| SystemExit (code : Z)
| Uncaught (e : OSError).

Inductive result (A : Type) :=
| Returned (a : A)
| Raised (e : exn).
Arguments Returned {A} a.
Arguments Raised {A} e.

Definition M (A : Type) : Type := process → result A * process.

#[global] Instance M_ret : MRet M := λ A a w, (Returned a, w).

#[global] Instance M_bind : MBind M := λ A B f m w,
  match m w with
  | (Returned a, w') => f a w'
  | (Raised e, w') => (Raised e, w')
  end.

Definition raise {A} (e : exn) : M A := λ w, (Raised e, w).

Definition get {A} (proj : process → A) : M A := λ w, (Returned (proj w), w).

Definition modify (f : process → process) : M unit := λ w, (Returned tt, f w).

Definition emit (evs : list event) : M unit :=
  modify (λ w, with_trace (trace w ++ evs) w).

(** [sys.exit(code)] *)
Definition sys_exit {A} (code : Z) : M A := raise (SystemExit code).

(** [log.setLevel(l)] *)
Definition log_setLevel (l : level) : M unit := modify (with_log_level l).

(** [log.addHandler(stdout)] *)
Definition log_addHandler : M unit :=
  modify (λ w, with_log_handlers (S (log_handlers w)) w).

(** [log.isEnabledFor(lvl)] for a logger at level [l] *)
Definition isEnabledFor (l lvl : level) : bool := level_no l <=? level_no lvl.

(** The records a call [log.log(lvl, msg)] leaves: one per handler when the
    logger is enabled for [lvl], none otherwise.  The handlers are those of
    [log] itself; those of its ancestors and the last-resort handler of
    [logging], used when there is none at all, are not followed. *)
Definition records (handlers : nat) (l lvl : level) (msg : log_msg)
  : list event :=
  if isEnabledFor l lvl then replicate handlers (Logged lvl msg) else [].

(** [log.log(lvl, msg)] *)
Definition log_log (lvl : level) (msg : log_msg) : M unit := λ w,
  emit (records (log_handlers w) (log_level w) lvl msg) w.

Definition log_debug := log_log DEBUG.
Definition log_info := log_log INFO.
Definition log_error := log_log ERROR.

(** [print(s, file=sys.stderr)] *)
Definition print_stderr (s : string) : M unit := emit [Printed s].

(** [p.exists()] *)
Definition Path_exists (p : path) : M bool :=
  emit [Stat p] ;; get (λ w, exists_ (fs w) p).

(** [p.mkdir(parents=..., exist_ok=...)]; an [OSError] propagates. *)
Definition Path_mkdir (p : path) (parents exist_ok : bool) : M unit :=
  emit [Mkdir p] ;;
  r ← get (λ w, mkdir (fs w) p parents exist_ok) ;
  modify (with_fs r.2) ;;
  match r.1 with
  | Some e => raise (Uncaught e)
  | None => mret tt
  end.

(** ** The class [SDCardWriter] *)

Module SDCardWriter.

(** The assignments [self.recode = args.recode] ... [self.jobs_max =
    args.parallel_jobs]. *)
Definition store_args (args : Namespace) (a : attributes) : attributes :=
  {| self_config := self_config a;
     self_recode := args_recode args;
     self_overwrite := Some (args_overwrite args);
     self_ffmpeg_bin := Some (args_ffmpeg args);
     self_ffmpeg_options := Some (args_ffmpeg_options args);
     self_jobs_max := Some (args_parallel_jobs args);
     self_files_to_encode := self_files_to_encode a |}.

(** [self.files_to_encode = files] *)
Definition store_files (files : list (string * string)) (a : attributes)
  : attributes :=
  {| self_config := self_config a;
     self_recode := self_recode a;
     self_overwrite := self_overwrite a;
     self_ffmpeg_bin := self_ffmpeg_bin a;
     self_ffmpeg_options := self_ffmpeg_options a;
     self_jobs_max := self_jobs_max a;
     self_files_to_encode := Some files |}.

(** The level chosen from the count of [-v] flags. *)
Definition verbosity (verbose : nat) : level :=
  match verbose with
  | 0%nat => ERROR
  | 1%nat => WARNING
  | 2%nat => INFO
  | 3%nat => DEBUG
  | _ => DEBUG
  end.

(** [_load_mapfile(filename)]: the existence check, then [return []]. *)
Definition _load_mapfile (filename : string) : M (list (string * string)) :=
  let mapfile := Path filename in
  found ← Path_exists mapfile ;
  (if negb found
   then log_error (Text ("Map file " +:+ filename +:+ " does not exist")) ;;
        sys_exit 1
   else mret tt) ;;
  mret [].

(** [argparser()], from [parser.parse_args()] on; [outcome] is what
    [parse_args] does with this process's command line. *)
Definition argparser (outcome : parse_args_outcome) : M unit :=
  match outcome with
  | Exited code => raise (SystemExit code)
  | Failed error =>
      print_stderr ("Error while parsing arguments: " +:+ error) ;;
      sys_exit 0
  | Parsed args =>
      log_setLevel (verbosity (args_verbose args)) ;;
      lvl ← get log_level ;
      log_info (Text ("Log level: " +:+ getLevelName lvl)) ;;
      argv ← get sys_argv ;
      log_debug (ArgvRepr argv) ;;
      log_debug (NamespaceRepr args) ;;
      modify (λ w, with_self (store_args args (self w)) w) ;;
      files ← _load_mapfile (args_mapfile args) ;
      modify (λ w, with_self (store_files files (self w)) w) ;;
      (if Nat.eqb (length files) 0
       then log_error (Text "No files to encode.")
       else mret tt) ;;
      log_debug (Text ("Creating output dir " +:+ args_output_dir args
                       +:+ " if needed")) ;;
      Path_mkdir (Path (args_output_dir args)) true true
  end.

(** [main()]: its body is [pass]. *)
Definition main : M unit := mret tt.

(** [__init__()]: attach a stream handler unless the logger has one;
    when run as a script, parse the arguments and call [main]. *)
Definition __init__ (__name__ : string) (outcome : parse_args_outcome)
  : M unit :=
  handlers ← get log_handlers ;
  (if Nat.eqb handlers 0
   then log_addHandler ;; log_setLevel loglevel
   else mret tt) ;;
  if String.eqb __name__ "__main__"
  then argparser outcome ;; main
  else mret tt.

End SDCardWriter.

(** ** The script *)

(** The last two lines: [if __name__ == '__main__': s = SDCardWriter()]. *)
Definition script (__name__ : string) (outcome : parse_args_outcome) : M unit :=
  if String.eqb __name__ "__main__"
  then SDCardWriter.__init__ __name__ outcome
  else mret tt.

(** The process after the module's top-level statements up to the class
    definition: the logger at [loglevel] without a handler, nothing done
    yet. *)
Definition boot (f : filesystem) (argv : list string) : process :=
  {| fs := f; sys_argv := argv; log_level := loglevel; log_handlers := 0;
     trace := []; self := class_attributes |}.

(** The exit status the interpreter reports: 0 when the script runs to its
    end, the code of a [SystemExit], 1 for any other uncaught exception. *)
Definition exit_status {A} (r : result A) : Z :=
  match r with
  | Returned _ => 0
  | Raised (SystemExit code) => code
  | Raised (Uncaught _) => 1
  end.

(** Running [creatUINO.py] as a program. *)
Definition run (outcome : parse_args_outcome) (f : filesystem)
    (argv : list string) : result unit * process :=
  script "__main__" outcome (boot f argv).

Definition status (outcome : parse_args_outcome) (f : filesystem)
    (argv : list string) : Z :=
  exit_status (run outcome f argv).1.

(** ** What the specification asks of the map parser

    These definitions follow the specification's sentences, not the script:
    they are the yardstick the script's [_load_mapfile] is compared with. *)

Module Spec.

Record MapEntry := { output_name : string; input_path : string }.

#[global] Instance MapEntry_eq_dec : EqDecision MapEntry.
Proof. solve_decision. Defined.

Definition newline : ascii := "010"%char.
Definition delimiter : ascii := ";"%char.
Definition comment_marker : ascii := "#"%char.

(** Blank lines and lines starting with the comment marker are ignored. *)
Definition ignored (line : string) : bool :=
  String.eqb line EmptyString || Str.startswith comment_marker line.

Inductive parsed_line :=
| Ignored
| Entry (e : MapEntry)
| Malformed.

(** A line that is not ignored has exactly two fields: output name, then
    input path. *)
Definition parse_line (line : string) : parsed_line :=
  if ignored line then Ignored
  else match Str.split delimiter line with
       | [name; input] => Entry {| output_name := name; input_path := input |}
       | _ => Malformed
       end.

Definition lines (text : string) : list string := Str.split newline text.

(** The entries of a map text, in input order. *)
Definition parse_map (text : string) : list MapEntry :=
  omap (λ line, match parse_line line with
                | Entry e => Some e
                | _ => None
                end) (lines text).

(** The numbers (from 1) of the lines with a wrong field count. *)
Definition malformed_lines (text : string) : list nat :=
  omap (λ '(i, line), match parse_line line with
                      | Malformed => Some (S i)
                      | _ => None
                      end) (imap pair (lines text)).

(** A bad map file: missing, or with a malformed line. *)
Definition bad_map_file (f : filesystem) (filename : string) : Prop :=
  match f !! Path filename with
  | Some (File text) => malformed_lines text ≠ []
  | _ => True
  end.

Definition is_file (n : node) : bool :=
  match n with File _ => true | Dir _ => false end.

(** The regular files directly inside directory [d] whose name is on the
    allow-list. *)
Definition matching_files (allow : string → bool) (f : filesystem)
    (d : path) : list path :=
  (filter (λ pn, bool_decide (parent pn.1 = d)
                 && negb (bool_decide (pn.1 = d))
                 && is_file pn.2
                 && allow (List.last pn.1 EmptyString) = true)
          (map_to_list f)).*1.

(** One Job for a file entry, one per matching file for a directory
    entry. *)
Definition entry_jobs (allow : string → bool) (f : filesystem)
    (e : MapEntry) : nat :=
  match f !! Path (input_path e) with
  | Some (File _) => 1
  | Some (Dir _) => length (matching_files allow f (Path (input_path e)))
  | None => 0
  end.

Definition job_count (allow : string → bool) (f : filesystem)
    (entries : list MapEntry) : nat :=
  sum_list (entry_jobs allow f <$> entries).


End Spec.

(** ** [_load_config]

    The method no caller reaches ([main] has the call commented out).  It
    needs three things the other methods do not: the exception [NameError],
    because the [except] clause calls [printerr], a name the module never
    defines; [configparser], taken as the function [parse_ini] from the text
    of a file to the sections read, [None] when it raises; and the text
    Python renders a value as inside a log message, taken as [render]. *)

Inductive exception :=
| Base (e : exn)
| NameError (name : string).

Definition MX (A : Type) : Type := process → (exception + A) * process.

#[global] Instance MX_ret : MRet MX := λ A a w, (inr a, w).

#[global] Instance MX_bind : MBind MX := λ A B f m w,
  match m w with
  | (inr a, w') => f a w'
  | (inl e, w') => (inl e, w')
  end.

(** A computation of the other methods, run where [NameError] can occur. *)
Definition lift {A} (m : M A) : MX A := λ w,
  match m w with
  | (Returned a, w') => (inr a, w')
  | (Raised e, w') => (inl (Base e), w')
  end.

Definition sections := list (string * list (string * string)).

(** The values the variable [config] of [_load_config] takes. *)
Inductive config_value :=
| ConfigParser (read : sections)
| EmptyDict.

Section load_config.

Variable parse_ini : string → option sections.
Variable render : config_value → string.

(** [config = configparser.ConfigParser(); config.read(cf)]: a file that
    cannot be opened is skipped without an error; a file that opens is
    parsed, and the parser's exception propagates ([inl tt]). *)
Definition ConfigParser_read (p : path) : MX (unit + config_value) :=
  lift (emit [Open p]) ;;
  f ← lift (get fs) ;
  match f !! p with
  | Some (File text) =>
      match parse_ini text with
      | Some read => mret (inr (ConfigParser read))
      | None => mret (inl tt)
      end
  | _ => mret (inr (ConfigParser []))
  end.

(** [printerr(...)]: the name is not defined. *)
Definition printerr : MX unit := λ w, (inl (NameError "printerr"), w).

Definition _load_config (configfile : string) (fatal_if_missing : bool)
  : MX config_value :=
  let cf := configfile in
  lift (log_debug (Text ("Config file: " +:+ cf))) ;;
  attempt ← ConfigParser_read (Path cf) ;
  config ← match attempt with
           | inr config => mret config
           | inl _ =>
               printerr ;;
               if fatal_if_missing
               then lift (sys_exit 2)
               else mret EmptyDict
           end ;
  lift (log_debug (Text ("Returning config: " +:+ render config))) ;;
  mret config.

End load_config.

(** The process once [_load_config] has named the configuration file in
    the log and tried to open it, and once it has logged what it returns. *)
Definition config_opened (cf : string) (w : process) : process :=
  with_trace ((trace w
               ++ records (log_handlers w) (log_level w) DEBUG
                    (Text ("Config file: " +:+ cf)))
              ++ [Open (Path cf)]) w.

Definition config_returning (rendered : string) (w : process) : process :=
  with_trace (trace w
              ++ records (log_handlers w) (log_level w) DEBUG
                   (Text ("Returning config: " +:+ rendered))) w.

(** A stand-in for [configparser] that accepts one text, and two working
    directories with a configuration file. *)
Module ConfigScenario.

Definition parse_ini (text : string) : option sections :=
  if String.eqb text "[tonuino]" then Some [("tonuino", [])] else None.

Definition render (config : config_value) : string :=
  match config with
  | ConfigParser _ => "<ConfigParser>"
  | EmptyDict => "{}"
  end.



End ConfigScenario.

(** ** Reading a trace *)

(** The calls into the operating system among the events of a trace. *)
Definition is_syscall (e : event) : bool :=
  match e with
  | Logged _ _ | Printed _ => false
  | _ => true
  end.

Definition syscalls (t : list event) : list event :=
  filter (λ e, is_syscall e = true) t.

(** ** Symbolic names for the states of a run *)

(** The records written between [parse_args] and the call of
    [_load_mapfile]. *)
Definition announced (args : Namespace) (argv : list string) : list event :=
  let l := SDCardWriter.verbosity (args_verbose args) in
  records 1 l INFO (Text ("Log level: " +:+ getLevelName l)) ++
  records 1 l DEBUG (ArgvRepr argv) ++
  records 1 l DEBUG (NamespaceRepr args).

(** The process when [argparser] calls [_load_mapfile]. *)
Definition at_load (args : Namespace) (f : filesystem) (argv : list string)
  : process :=
  {| fs := f; sys_argv := argv;
     log_level := SDCardWriter.verbosity (args_verbose args);
     log_handlers := 1;
     trace := announced args argv;
     self := SDCardWriter.store_args args class_attributes |}.

Definition missing_message (filename : string) : log_msg :=
  Text ("Map file " +:+ filename +:+ " does not exist").

Definition creating_message (args : Namespace) : log_msg :=
  Text ("Creating output dir " +:+ args_output_dir args +:+ " if needed").

(** ** Concrete worlds *)

Module Scenario.

Definition nl : string := String Spec.newline EmptyString.

Definition args : Namespace := default_args 4.

(** Only a writable working directory. *)
Definition bare : filesystem := {[ [] := Dir true ]}.

(** The specification's scenario: two map lines, one naming a file and
    one naming a directory with two files. *)
Definition two_lines : string :=
  "track1.mp3;src/a.wav" +:+ nl +:+ "track2.mp3;src/dir/".

Definition media : filesystem :=
  {[ [] := Dir true;
     ["map.csv"] := File two_lines;
     ["src"] := Dir true;
     ["src"; "a.wav"] := File "a";
     ["src"; "dir"] := Dir true;
     ["src"; "dir"; "b.wav"] := File "b";
     ["src"; "dir"; "c.wav"] := File "c" ]}.

(** A map whose only line has three fields. *)
Definition three_fields : string := "a;b;c".

Definition malformed : filesystem :=
  {[ [] := Dir true; ["map.csv"] := File three_fields ]}.



(** An empty map, and a regular file where the output directory should
    go. *)
Definition blocked : filesystem :=
  {[ [] := Dir true;
     ["map.csv"] := File EmptyString;
     ["out"] := File EmptyString ]}.

(** A directory where the map file should be. *)
Definition map_is_a_directory : filesystem :=
  {[ [] := Dir true; ["map.csv"] := Dir true ]}.

(** An empty map in a working directory that is not writable. *)
Definition readonly : filesystem :=
  {[ [] := Dir false; ["map.csv"] := File EmptyString ]}.

End Scenario.

(** * Properties *)

(** ** [pathlib] model *)

Lemma parent_length (p : path) :
  parent p ≠ p → (length (parent p) < length p)%nat.
Proof.
  destruct p as [|a [|b q]].
  - done.
  - cbn. destruct (is_root a); [done | cbn; lia].
  - intros _. unfold parent.
    rewrite removelast_firstn_len, length_take. cbn [length]. lia.
Qed.

Lemma os_mkdir_inr (f f' : filesystem) (p : path) :
  os_mkdir f p = inr f' →
  f !! p = None ∧ f !! parent p = Some (Dir true) ∧ f' = <[p := Dir true]> f.
Proof.
  unfold os_mkdir. destruct (f !! p); [done |].
  destruct (f !! parent p) as [[c | [|]] |]; naive_solver.
Qed.

Lemma os_mkdir_inl (f : filesystem) (p : path) (e : OSError) :
  os_mkdir f p = inl e →
  match e with
  | FileExistsError => is_Some (f !! p)
  | FileNotFoundError => f !! p = None ∧ f !! parent p = None
  | NotADirectoryError => f !! p = None ∧ ∃ c, f !! parent p = Some (File c)
  | PermissionError => f !! p = None ∧ f !! parent p = Some (Dir false)
  end.
Proof.
  unfold os_mkdir. destruct (f !! p) as [n|]; [naive_solver |].
  destruct (f !! parent p) as [[c | [|]] |]; naive_solver.
Qed.

Lemma except_OSError_None (f f' : filesystem) (p : path) (exist_ok : bool)
    (e : OSError) :
  except_OSError f p exist_ok e = (None, f') →
  f' = f ∧ exist_ok = true ∧ is_dir f p = true.
Proof.
  unfold except_OSError. destruct exist_ok, (is_dir f p); naive_solver.
Qed.

Lemma is_dir_insert (f : filesystem) (p q : path) :
  f !! p = None → is_dir f q = true → is_dir (<[p := Dir true]> f) q = true.
Proof.
  unfold is_dir. intros Hp. destruct (decide (p = q)) as [-> | Hne].
  - by rewrite Hp.
  - by rewrite lookup_insert_ne.
Qed.

(** A successful [mkdir] leaves a directory at the path. *)
Lemma mkdir_ok_is_dir (f : filesystem) (p : path) (parents exist_ok : bool)
    (f' : filesystem) :
  mkdir f p parents exist_ok = (None, f') → is_dir f' p = true.
Proof.
  funelim (mkdir f p parents exist_ok); intros Hres;
    try discriminate;
    try (by apply except_OSError_None in Hres as (-> & _ & ?)).
  - injection Hres as <-. apply os_mkdir_inr in Heq as (_ & _ & ->).
    unfold is_dir. by rewrite lookup_insert_eq.
  - injection Hres as <-. apply os_mkdir_inr in Heq as (_ & _ & ->).
    unfold is_dir. by rewrite lookup_insert_eq.
Qed.

Lemma os_mkdir_keeps (f f' : filesystem) (p q : path) (n : node) :
  os_mkdir f p = inr f' → f !! q = Some n → f' !! q = Some n.
Proof.
  intros (Hp & _ & ->)%os_mkdir_inr Hq.
  rewrite lookup_insert_ne; [done | congruence].
Qed.

(** [mkdir] never removes or changes an entry. *)
Lemma mkdir_keeps (f : filesystem) (p : path) (parents exist_ok : bool)
    (q : path) (n : node) (r : option OSError * filesystem) :
  mkdir f p parents exist_ok = r → f !! q = Some n → r.2 !! q = Some n.
Proof.
  funelim (mkdir f p parents exist_ok); intros Hres Hq; subst r; cbn.
  all: try (unfold except_OSError; repeat case_match; simplify_eq/=; by eauto).
  all: try (by eapply os_mkdir_keeps).
  all: match goal with
       | IH : ∀ q n r, mkdir _ _ _ _ = r → _, E : mkdir _ _ _ _ = _ |- _ =>
           specialize (IH q n _ E Hq); cbn in IH
       end.
  all: try done.
  all: try (unfold except_OSError; by repeat case_match).
  by eapply os_mkdir_keeps.
Qed.

Lemma except_OSError_fs (f : filesystem) (p : path) (exist_ok : bool)
    (e : OSError) :
  (except_OSError f p exist_ok e).2 = f.
Proof. unfold except_OSError. by case_match. Qed.

(** With [exist_ok], a directory that is already there is not an error,
    and nothing changes. *)
Lemma mkdir_existing_dir (f : filesystem) (p : path) (parents : bool) :
  is_dir f p = true → mkdir f p parents true = (None, f).
Proof.
  intros Hd. simp mkdir.
  assert (os_mkdir f p = inl FileExistsError) as ->.
  { unfold os_mkdir, is_dir in *. by destruct (f !! p). }
  cbn. unfold except_OSError. by rewrite Hd.
Qed.

(** A path [mkdir] found absent and created has a directory as parent. *)
Lemma mkdir_ok_parent (f : filesystem) (p : path) (parents exist_ok : bool)
    (f' : filesystem) :
  mkdir f p parents exist_ok = (None, f') → f !! p = None →
  is_dir f' (parent p) = true.
Proof.
  funelim (mkdir f p parents exist_ok); intros Hres Hp; try discriminate.
  all: try (apply except_OSError_None in Hres as (-> & _ & Hd)).
  all: try (unfold is_dir in Hd; by rewrite Hp in Hd).
  all: try (by eapply mkdir_ok_is_dir).
  all: injection Hres as <-;
    match goal with
    | E : os_mkdir _ _ = inr _ |- _ => apply os_mkdir_inr in E as (? & Hpar & ->)
    end.
  all: apply is_dir_insert; [done |].
  - unfold is_dir. by rewrite Hpar.
  - by eapply mkdir_ok_is_dir.
Qed.

(** ** Logging *)

(** A logger set by [verbosity] is always enabled for errors. *)
Lemma error_enabled (l : level) : isEnabledFor l ERROR = true.
Proof. by destruct l. Qed.

Lemma records_error (n : nat) (l : level) (msg : log_msg) :
  records n l ERROR msg = replicate n (Logged ERROR msg).
Proof. unfold records. by rewrite error_enabled. Qed.

Lemma records_logged (n : nat) (l lvl : level) (msg : log_msg) (e : event) :
  e ∈ records n l lvl msg → e = Logged lvl msg.
Proof.
  unfold records. case_match; [| by intros ?%elem_of_nil].
  by intros [-> _]%elem_of_replicate.
Qed.

Lemma announced_logged (args : Namespace) (argv : list string) (e : event) :
  e ∈ announced args argv → ∃ lvl msg, e = Logged lvl msg.
Proof.
  unfold announced. rewrite !elem_of_app.
  intros [H | [H | H]]; apply records_logged in H; eauto.
Qed.

(** ** [_load_mapfile] *)

(** The two ways [_load_mapfile] ends. *)
Lemma load_mapfile_eq (filename : string) (w : process) :
  SDCardWriter._load_mapfile filename w =
    if exists_ (fs w) (Path filename)
    then (Returned [], with_trace (trace w ++ [Stat (Path filename)]) w)
    else (Raised (SystemExit 1),
          with_trace ((trace w ++ [Stat (Path filename)]) ++
                      replicate (log_handlers w)
                        (Logged ERROR (missing_message filename))) w).
Proof.
  unfold SDCardWriter._load_mapfile, Path_exists, mbind, M_bind, get. cbn.
  destruct (exists_ (fs w) (Path filename)); cbn; [done |].
  unfold log_error, log_log, emit, modify. cbn.
  by rewrite records_error.
Qed.

(** ** The whole run *)

#[local] Arguments SDCardWriter._load_mapfile : simpl never.

(** A run whose command line parses, executed symbolically. *)
Lemma run_Parsed (args : Namespace) (f : filesystem) (argv : list string) :
  run (Parsed args) f argv =
    let w := at_load args f argv in
    let mapfile := Path (args_mapfile args) in
    let out := Path (args_output_dir args) in
    if exists_ f mapfile
    then
      let r := mkdir f out true true in
      (match r.1 with
       | Some e => Raised (Uncaught e)
       | None => Returned tt
       end,
       {| fs := r.2; sys_argv := argv; log_level := log_level w;
          log_handlers := 1;
          trace := trace w
                   ++ [Stat mapfile; Logged ERROR (Text "No files to encode.")]
                   ++ records 1 (log_level w) DEBUG (creating_message args)
                   ++ [Mkdir out];
          self := SDCardWriter.store_files [] (self w) |})
    else
      (Raised (SystemExit 1),
       with_trace (trace w ++ [Stat mapfile;
                               Logged ERROR (missing_message (args_mapfile args))])
                  w).
Proof.
  unfold run, script, SDCardWriter.__init__, SDCardWriter.argparser. cbn.
  unfold mbind, M_bind. cbn.
  rewrite load_mapfile_eq. cbn.
  unfold at_load, announced. cbn.
  destruct (SDCardWriter.verbosity (args_verbose args));
    destruct (exists_ f (Path (args_mapfile args))); cbn; try done.
  all: unfold SDCardWriter.main, Path_mkdir, emit, modify, get, mbind, M_bind;
    cbn.
  all: by destruct (mkdir f (Path (args_output_dir args)) true true) as [[e|] f'].
Qed.


Lemma status_Failed (error : string) (f : filesystem) (argv : list string) :
  status (Failed error) f argv = 0.
Proof. done. Qed.

(** Every event of a run is a log record, the check of the map file or the
    creation of the output directory. *)
Lemma run_events (args : Namespace) (f : filesystem) (argv : list string)
    (e : event) :
  e ∈ trace (run (Parsed args) f argv).2 →
  (∃ lvl msg, e = Logged lvl msg)
  ∨ e = Stat (Path (args_mapfile args))
  ∨ e = Mkdir (Path (args_output_dir args)).
Proof.
  rewrite run_Parsed. cbn zeta.
  destruct (exists_ f (Path (args_mapfile args))); cbn; intros H.
  all: repeat match type of H with
         | _ ∈ _ ++ _ => apply elem_of_app in H as [H | H]
         | _ ∈ _ :: _ => apply elem_of_cons in H as [-> | H]
         | _ ∈ [] => by apply elem_of_nil in H
         | _ ∈ announced _ _ => apply announced_logged in H
         | _ ∈ records _ _ _ _ => apply records_logged in H
         end.
  all: eauto.
Qed.

Lemma run_never_opens (args : Namespace) (f : filesystem) (argv : list string)
    (p : path) :
  Open p ∉ trace (run (Parsed args) f argv).2.
Proof. by intros [(? & ? & ?) | [? | ?]]%run_events. Qed.

Lemma run_never_spawns (args : Namespace) (f : filesystem)
    (argv : list string) (cmd : string) :
  Spawn cmd ∉ trace (run (Parsed args) f argv).2.
Proof. by intros [(? & ? & ?) | [? | ?]]%run_events. Qed.

(** The result of [_load_mapfile] depends on the file system alone. *)
Lemma load_mapfile_result (filename : string) (w : process) :
  (SDCardWriter._load_mapfile filename w).1 =
    if exists_ (fs w) (Path filename) then Returned []
    else Raised (SystemExit 1).
Proof. rewrite load_mapfile_eq. by case_match. Qed.

Lemma exists_is_Some (f : filesystem) (p : path) :
  exists_ f p = true ↔ is_Some (f !! p).
Proof.
  unfold exists_. destruct (f !! p).
  - split; eauto.
  - split; [done | by intros [? ?]].
Qed.

Lemma exists_None (f : filesystem) (p : path) :
  exists_ f p = false ↔ f !! p = None.
Proof. unfold exists_. by destruct (f !! p). Qed.

(** An output directory that is absent under a directory without write
    permission cannot be made. *)
Lemma mkdir_unwritable (f : filesystem) (p : path) (parents exist_ok : bool) :
  f !! p = None → f !! parent p = Some (Dir false) →
  mkdir f p parents exist_ok = (Some PermissionError, f).
Proof.
  intros Hp Hpar. simp mkdir.
  assert (os_mkdir f p = inl PermissionError) as ->.
  { unfold os_mkdir. by rewrite Hp, Hpar. }
  cbn. unfold except_OSError, is_dir. rewrite Hp. by destruct exist_ok.
Qed.

(** A directory at the map file path passes the existence check like a
    file does. *)
Lemma load_mapfile_directory (filename : string) (w : process)
    (writable : bool) :
  fs w !! Path filename = Some (Dir writable) →
  (SDCardWriter._load_mapfile filename w).1 = Returned [].
Proof.
  intros Hd. rewrite load_mapfile_result. unfold exists_. by rewrite Hd.
Qed.

(** ** The model on concrete inputs *)

Example Path_relative : Path "./out" = ["out"].
Proof. reflexivity. Qed.

Example Path_absolute : Path "/mnt//sd/./card/" = ["/"; "mnt"; "sd"; "card"].
Proof. reflexivity. Qed.

Example Path_two_slashes : Path "//host/share" = ["//"; "host"; "share"].
Proof. reflexivity. Qed.

Example Path_current_directory : Path "." = [] ∧ Path EmptyString = [].
Proof. split; reflexivity. Qed.

Example parent_of_root : parent ["/"] = ["/"] ∧ parent ["out"] = [].
Proof. split; reflexivity. Qed.

Example mkdir_makes_parents :
  let r := mkdir Scenario.bare (Path "out/a/b") true true in
  r.1 = None
  ∧ r.2 !! ["out"] = Some (Dir true)
  ∧ r.2 !! ["out"; "a"] = Some (Dir true)
  ∧ r.2 !! ["out"; "a"; "b"] = Some (Dir true)
  ∧ size r.2 = 4%nat.
Proof. repeat split; vm_compute; reflexivity. Qed.

Example mkdir_without_parents :
  let r := mkdir Scenario.bare (Path "out/a/b") false true in
  r.1 = Some FileNotFoundError ∧ size r.2 = 1%nat.
Proof. repeat split; vm_compute; reflexivity. Qed.

Example mkdir_over_a_file :
  (mkdir Scenario.blocked (Path "./out") true true).1 = Some FileExistsError.
Proof. vm_compute. reflexivity. Qed.

Example mkdir_below_a_file :
  (mkdir Scenario.blocked (Path "map.csv/out") true true).1
  = Some NotADirectoryError.
Proof. vm_compute. reflexivity. Qed.

Example spec_skips_comments_and_blank_lines :
  Spec.parse_map ("# tracks" +:+ Scenario.nl +:+ Scenario.nl +:+ "01;a.mp3")
  = [ {| Spec.output_name := "01"; Spec.input_path := "a.mp3" |} ].
Proof. vm_compute. reflexivity. Qed.

Example spec_numbers_malformed_lines :
  Spec.malformed_lines
    ("01;a.mp3" +:+ Scenario.nl +:+ "lonely" +:+ Scenario.nl +:+ "a;b;c")
  = [2%nat; 3%nat].
Proof. vm_compute. reflexivity. Qed.

(** The specification's scenario, run with the default arguments: the run
    checks the map file, logs that there is nothing to encode, makes
    [./out] and ends with status 0; nothing else appears under the output
    root. *)
Example run_scenario :
  let r := run (Parsed Scenario.args) Scenario.media [] in
  r.1 = Returned tt
  ∧ trace r.2 = [ Stat ["map.csv"];
                  Logged ERROR (Text "No files to encode.");
                  Mkdir ["out"] ]
  ∧ fs r.2 !! ["out"] = Some (Dir true)
  ∧ size (fs r.2) = S (size Scenario.media)
  ∧ self_files_to_encode (self r.2) = Some [].
Proof. repeat split; vm_compute; reflexivity. Qed.

Example run_readonly :
  status (Parsed Scenario.args) Scenario.readonly [] = 1
  ∧ (run (Parsed Scenario.args) Scenario.readonly []).1
    = Raised (Uncaught PermissionError).
Proof. split; reflexivity. Qed.

Example run_usage_error : status (Exited 2) Scenario.media [] = 2.
Proof. reflexivity. Qed.

(** * The claims *)

(** C1 (defect in the script).  The specification's parser turns the two
    lines of the scenario map into two entries, output name first, input
    path second, in input order.  [_load_mapfile], whose docstring promises
    the list of tuples read from the map file, returns the empty list for
    the same file. *)
Theorem C1_scenario_entries_lost :
  Spec.parse_map Scenario.two_lines =
    [ {| Spec.output_name := "track1.mp3"; Spec.input_path := "src/a.wav" |};
      {| Spec.output_name := "track2.mp3"; Spec.input_path := "src/dir/" |} ]
  ∧ Scenario.media !! Path "map.csv" = Some (File Scenario.two_lines)
  ∧ (SDCardWriter._load_mapfile "map.csv"
       (at_load Scenario.args Scenario.media [])).1 = Returned [].
Proof. repeat split; vm_compute; reflexivity. Qed.

(** C2, as the specification states it, fails: a directory at the map
    file path is not an existing file, yet [exists()] accepts it, the run
    raises nothing and ends with status 0. *)
Lemma C2_directory_is_not_rejected :
  ¬ ((∀ text, Scenario.map_is_a_directory !! Path "map.csv"
              ≠ Some (File text)) →
     ∃ e, (run (Parsed Scenario.args) Scenario.map_is_a_directory []).1
          = Raised e
          ∧ status (Parsed Scenario.args) Scenario.map_is_a_directory [] ≠ 0).
Proof.
  intros H. destruct H as (e & He & _); [| by vm_compute in He].
  intros text. vm_compute. discriminate.
Qed.

(** C2, amended.  When [exists()] of the map file path returns [False], the
    run ends in [sys.exit(1)]: the exit status is not zero, the error "Map
    file ... does not exist" has been logged, no file was opened, no list
    of files to encode was produced, no encoder was started and the file
    system is as it was. *)
Theorem C2_missing_mapfile_exits_1 (args : Namespace) (f : filesystem)
    (argv : list string) :
  exists_ f (Path (args_mapfile args)) = false →
  let r := run (Parsed args) f argv in
  (SDCardWriter._load_mapfile (args_mapfile args) (at_load args f argv)).1
    = Raised (SystemExit 1)
  ∧ r.1 = Raised (SystemExit 1)
  ∧ exit_status r.1 ≠ 0
  ∧ Logged ERROR (missing_message (args_mapfile args)) ∈ trace r.2
  ∧ (∀ p, Open p ∉ trace r.2)
  ∧ self_files_to_encode (self r.2) = None
  ∧ (∀ cmd, Spawn cmd ∉ trace r.2)
  ∧ fs r.2 = f.
Proof.
  intros Hmiss r. split.
  { rewrite load_mapfile_result. cbn. by rewrite Hmiss. }
  split_and!; try (intros; by (apply run_never_opens || apply run_never_spawns)).
  all: subst r; rewrite run_Parsed; cbn zeta; rewrite Hmiss; cbn; try done.
  rewrite elem_of_app, !elem_of_cons. auto.
Qed.

(** C2 in a working directory without a map file. *)
Lemma C2_missing_mapfile_witness :
  let r := run (Parsed Scenario.args) Scenario.bare [] in
  (SDCardWriter._load_mapfile "map.csv"
     (at_load Scenario.args Scenario.bare [])).1 = Raised (SystemExit 1)
  ∧ r.1 = Raised (SystemExit 1)
  ∧ exit_status r.1 ≠ 0
  ∧ Logged ERROR (missing_message "map.csv") ∈ trace r.2
  ∧ (∀ p, Open p ∉ trace r.2)
  ∧ self_files_to_encode (self r.2) = None
  ∧ (∀ cmd, Spawn cmd ∉ trace r.2)
  ∧ fs r.2 = Scenario.bare.
Proof.
  apply (C2_missing_mapfile_exits_1 Scenario.args Scenario.bare []).
  reflexivity.
Defined.

(** C3, as the specification states it, fails: a map file with a
    three-field line is a bad map file, yet the run ends with status 0. *)
Lemma C3_malformed_map_exits_0 :
  ¬ (Spec.bad_map_file Scenario.malformed "map.csv" →
     status (Parsed Scenario.args) Scenario.malformed [] ≠ 0).
Proof.
  intros H. apply H; [| reflexivity].
  vm_compute. discriminate.
Qed.

(** C3, amended.  For a run whose command line parses, the exit status is
    0 exactly when the map file path exists and [mkdir] of the output
    directory raises nothing; otherwise it is 1.  No encoder is ever
    started, so no Job can fail. *)
Theorem C3_exit_status (args : Namespace) (f : filesystem)
    (argv : list string) :
  let r := run (Parsed args) f argv in
  (exit_status r.1 = 0 ↔
     exists_ f (Path (args_mapfile args)) = true
     ∧ (mkdir f (Path (args_output_dir args)) true true).1 = None)
  ∧ (exit_status r.1 = 0 ∨ exit_status r.1 = 1)
  ∧ (∀ cmd, Spawn cmd ∉ trace r.2).
Proof.
  intros r. split_and!; [| | intros; apply run_never_spawns].
  all: subst r; rewrite run_Parsed; cbn zeta.
  all: destruct (exists_ f (Path (args_mapfile args))); cbn.
  all: destruct (mkdir f (Path (args_output_dir args)) true true).1; cbn.
  all: intuition congruence.
Qed.

(** The two structural errors the script knows end the run with status 1. *)
Lemma missing_mapfile_status (args : Namespace) (f : filesystem)
    (argv : list string) :
  f !! Path (args_mapfile args) = None → status (Parsed args) f argv = 1.
Proof.
  intros Hmiss%exists_None. unfold status.
  rewrite run_Parsed. cbn zeta. by rewrite Hmiss.
Qed.

Lemma unwritable_root_status (args : Namespace) (f : filesystem)
    (argv : list string) :
  is_Some (f !! Path (args_mapfile args)) →
  f !! Path (args_output_dir args) = None →
  f !! parent (Path (args_output_dir args)) = Some (Dir false) →
  status (Parsed args) f argv = 1 ∧ fs (run (Parsed args) f argv).2 = f.
Proof.
  intros Hex%exists_is_Some Hout Hpar. unfold status.
  rewrite run_Parsed. cbn zeta. rewrite Hex.
  by rewrite (mkdir_unwritable _ _ _ _ Hout Hpar).
Qed.

(** C4, as the specification states it, fails: a map file with a
    three-field line is a parse error of the specification, yet no error
    surfaces, and the run makes the output directory. *)
Lemma C4_malformed_map_has_side_effects :
  ¬ (Spec.bad_map_file Scenario.malformed "map.csv" →
     (∃ e, (run (Parsed Scenario.args) Scenario.malformed []).1 = Raised e)
     ∧ fs (run (Parsed Scenario.args) Scenario.malformed []).2 !! ["out"]
       = None).
Proof.
  intros H. destruct H as [_ Hout]; [| by vm_compute in Hout].
  vm_compute. discriminate.
Qed.

(** C4, amended.  When the call of [_load_mapfile] made by the run fails,
    the run stops with that very error; the file system is untouched, no
    directory creation was attempted and no file was opened. *)
Theorem C4_load_failure_has_no_side_effect (args : Namespace)
    (f : filesystem) (argv : list string) (e : exn) :
  (SDCardWriter._load_mapfile (args_mapfile args) (at_load args f argv)).1
    = Raised e →
  let r := run (Parsed args) f argv in
  r.1 = Raised e
  ∧ fs r.2 = f
  ∧ (∀ p, Mkdir p ∉ trace r.2)
  ∧ (∀ p, Open p ∉ trace r.2)
  ∧ self_files_to_encode (self r.2) = None.
Proof.
  intros Hload r. rewrite load_mapfile_result in Hload.
  cbn [fs at_load] in Hload.
  split_and!; [| | | intros; apply run_never_opens |].
  all: subst r; rewrite run_Parsed; cbn zeta.
  all: destruct (exists_ f (Path (args_mapfile args))); [done |]; cbn.
  all: try done.
  { by injection Hload as <-. }
  intros p H.
  repeat match type of H with
         | _ ∈ _ ++ _ => apply elem_of_app in H as [H | H]
         | _ ∈ _ :: _ => apply elem_of_cons in H as [? | H]
         | _ ∈ [] => by apply elem_of_nil in H
         | _ ∈ announced _ _ => apply announced_logged in H as (? & ? & ?)
         end; done.
Qed.

(** C4 in a working directory without a map file. *)
Lemma C4_load_failure_witness :
  let r := run (Parsed Scenario.args) Scenario.bare [] in
  r.1 = Raised (SystemExit 1)
  ∧ fs r.2 = Scenario.bare
  ∧ (∀ p, Mkdir p ∉ trace r.2)
  ∧ (∀ p, Open p ∉ trace r.2)
  ∧ self_files_to_encode (self r.2) = None.
Proof.
  apply (C4_load_failure_has_no_side_effect Scenario.args Scenario.bare []).
  reflexivity.
Defined.

(** C5 (defect in the script).  In the specification's scenario the count
    it asks for is 3: one Job for the file entry and one for each of the two
    files of the directory entry.  The run of the script stores an empty
    list of files to encode. *)
Theorem C5_scenario_job_count :
  Spec.job_count (λ _, true) Scenario.media
    (Spec.parse_map Scenario.two_lines) = 3%nat
  ∧ (length <$> self_files_to_encode
       (self (run (Parsed Scenario.args) Scenario.media []).2)) = Some 0%nat.
Proof. split; vm_compute; reflexivity. Qed.







(** C8.  When the map file path names something in the file system,
    [_load_mapfile] returns the empty list whatever the file holds: the only
    thing it does is the existence check; it opens no file, logs nothing,
    and leaves the file system and the instance as they were. *)
Theorem C8_existing_mapfile_loads_empty (filename : string) (w : process) :
  is_Some (fs w !! Path filename) →
  let r := SDCardWriter._load_mapfile filename w in
  r.1 = Returned []
  ∧ trace r.2 = trace w ++ [Stat (Path filename)]
  ∧ (∀ p, Open p ∈ trace r.2 → Open p ∈ trace w)
  ∧ fs r.2 = fs w
  ∧ self r.2 = self w.
Proof.
  intros Hex%exists_is_Some r. subst r.
  rewrite load_mapfile_eq, Hex. cbn. split_and!; try done.
  intros p [H | H]%elem_of_app; [done |].
  by apply elem_of_cons in H as [? | ?%elem_of_nil].
Qed.

(** C8 on the map file of the scenario. *)
Lemma C8_existing_mapfile_witness :
  let r := SDCardWriter._load_mapfile "map.csv"
             (at_load Scenario.args Scenario.media []) in
  r.1 = Returned []
  ∧ trace r.2 = [Stat ["map.csv"]]
  ∧ (∀ p, Open p ∈ trace r.2 → Open p ∈ [])
  ∧ fs r.2 = Scenario.media
  ∧ self r.2 = SDCardWriter.store_args Scenario.args class_attributes.
Proof.
  apply (C8_existing_mapfile_loads_empty "map.csv"
           (at_load Scenario.args Scenario.media [])).
  vm_compute. eauto.
Defined.

(** C9, as stated, fails: the map yields no file to encode, but a regular
    file sits where the output directory should go; [mkdir] raises and the
    run ends with status 1, without an output directory. *)
Lemma C9_blocked_output_exits_1 :
  ¬ ((SDCardWriter._load_mapfile "map.csv"
        (at_load Scenario.args Scenario.blocked [])).1 = Returned [] →
     status (Parsed Scenario.args) Scenario.blocked [] = 0
     ∧ is_dir (fs (run (Parsed Scenario.args) Scenario.blocked []).2)
         (Path "./out") = true).
Proof.
  intros H. destruct H as [H _]; [reflexivity |]. by vm_compute in H.
Qed.

(** C9, amended.  When the map yields no file to encode, the error "No
    files to encode." is logged and the run goes on to [mkdir] of the output
    directory.  A directory already there is not an error and nothing
    changes.  Whenever [mkdir] raises nothing, the run completes with
    status 0, the output path is a directory, and so is its parent when the
    output path was absent before. *)
Theorem C9_no_files_still_makes_output_dir (args : Namespace)
    (f : filesystem) (argv : list string) :
  (SDCardWriter._load_mapfile (args_mapfile args) (at_load args f argv)).1
    = Returned [] →
  let r := run (Parsed args) f argv in
  let out := Path (args_output_dir args) in
  Logged ERROR (Text "No files to encode.") ∈ trace r.2
  ∧ Mkdir out ∈ trace r.2
  ∧ (is_dir f out = true → r.1 = Returned tt ∧ fs r.2 = f)
  ∧ ((mkdir f out true true).1 = None →
     r.1 = Returned tt ∧ exit_status r.1 = 0
     ∧ is_dir (fs r.2) out = true
     ∧ (f !! out = None → is_dir (fs r.2) (parent out) = true)).
Proof.
  intros Hload r out. rewrite load_mapfile_result in Hload.
  cbn [fs at_load] in Hload.
  destruct (exists_ f (Path (args_mapfile args))) eqn:Hex; [| done].
  subst r. rewrite run_Parsed. cbn zeta. rewrite Hex. fold out. cbn.
  split_and!.
  - rewrite elem_of_app, !elem_of_cons. auto.
  - rewrite !elem_of_app, !elem_of_cons, !elem_of_app, !elem_of_cons. auto 10.
  - intros Hd. by rewrite (mkdir_existing_dir _ _ _ Hd).
  - destruct (mkdir f out true true) as [[e|] f'] eqn:Hmk; [done |]. cbn.
    intros _. split_and!; try done.
    + by eapply mkdir_ok_is_dir.
    + intros Hout. by eapply mkdir_ok_parent.
Qed.

(** C9 on a map that yields no file, with the output directory absent. *)
Lemma C9_no_files_witness :
  let r := run (Parsed Scenario.args) Scenario.malformed [] in
  Logged ERROR (Text "No files to encode.") ∈ trace r.2
  ∧ Mkdir ["out"] ∈ trace r.2
  ∧ r.1 = Returned tt
  ∧ exit_status r.1 = 0
  ∧ is_dir (fs r.2) ["out"] = true
  ∧ is_dir (fs r.2) [] = true.
Proof.
  destruct (C9_no_files_still_makes_output_dir
              Scenario.args Scenario.malformed [] eq_refl)
    as (Hlog & Hmk & _ & Hok).
  destruct (Hok eq_refl) as (Hret & Hst & Hdir & Hpar).
  exact (conj Hlog (conj Hmk (conj Hret (conj Hst (conj Hdir (Hpar eq_refl)))))).
Defined.

(** C10.  [main] does nothing: it returns at once and the process state,
    file system, trace and instance attributes included, is the one it was
    called in; so the call of [main] that follows [argparser] in the
    initializer adds nothing to what [argparser] did. *)
Theorem C10_main_changes_nothing (w : process) :
  SDCardWriter.main w = (Returned tt, w)
  ∧ ∀ outcome,
      (SDCardWriter.argparser outcome ;; SDCardWriter.main) w
      = SDCardWriter.argparser outcome w.
Proof.
  split; [reflexivity |]. intros outcome.
  unfold mbind, M_bind.
  by destruct (SDCardWriter.argparser outcome w) as [[[] | e] w'].
Qed.

(** * Further properties of the script *)

(** ** Helpers *)


(** The file system a run leaves behind. *)
Lemma run_fs (outcome : parse_args_outcome) (f : filesystem)
    (argv : list string) :
  fs (run outcome f argv).2 =
    match outcome with
    | Parsed args =>
        if exists_ f (Path (args_mapfile args))
        then (mkdir f (Path (args_output_dir args)) true true).2
        else f
    | _ => f
    end.
Proof.
  destruct outcome as [args | code | error]; [| done | done].
  rewrite run_Parsed. cbn zeta. by case_match.
Qed.

Lemma run_status (args : Namespace) (f : filesystem) (argv : list string) :
  status (Parsed args) f argv =
    if exists_ f (Path (args_mapfile args))
    then match (mkdir f (Path (args_output_dir args)) true true).1 with
         | Some _ => 1
         | None => 0
         end
    else 1.
Proof.
  unfold status. rewrite run_Parsed. cbn zeta.
  destruct (exists_ f (Path (args_mapfile args))); [| done]. cbn.
  by destruct (mkdir f (Path (args_output_dir args)) true true).1.
Qed.

Lemma parent_prefix (p : path) : parent p `prefix_of` p.
Proof.
  destruct p as [|a [|b q]].
  - done.
  - cbn. destruct (is_root a); [done | apply prefix_nil].
  - unfold parent. exists [List.last (a :: b :: q) a].
    by apply app_removelast_last.
Qed.

(** Every entry [mkdir] adds is a directory at the path itself or at one of
    its ancestors. *)
Lemma mkdir_adds_ancestor (f : filesystem) (p : path)
    (parents exist_ok : bool) (q : path) (n : node)
    (r : option OSError * filesystem) :
  mkdir f p parents exist_ok = r → r.2 !! q = Some n →
  f !! q = Some n ∨ ((∃ writable, n = Dir writable) ∧ q `prefix_of` p).
Proof.
  funelim (mkdir f p parents exist_ok); intros Hres Hq; subst r; cbn in Hq.
  all: rewrite ?except_OSError_fs in Hq.
  all: try (by left).
  all: try match goal with
       | IH : ∀ q n r, mkdir _ _ _ _ = r → _, E : mkdir _ _ _ _ = _ |- _ =>
           specialize (IH q n _ E); cbn in IH;
           pose proof (parent_prefix p) as Hpre
       end.
  all: try (destruct (Hind Hq) as [? | [? ?]];
            [by left | right; split; [done | by etrans]]).
  all: match goal with
       | E : os_mkdir _ _ = inr _ |- _ => apply os_mkdir_inr in E as (? & ? & ->)
       end.
  all: destruct (decide (p = q)) as [-> | Hpq];
    [rewrite lookup_insert_eq in Hq; injection Hq as <-; right; split;
       [by eexists | done]
    | rewrite lookup_insert_ne in Hq by done].
  - by left.
  - destruct (Hind Hq) as [? | [? ?]];
      [by left | right; split; [done | by etrans]].
Qed.

Lemma syscalls_app (t u : list event) :
  syscalls (t ++ u) = syscalls t ++ syscalls u.
Proof. apply filter_app. Qed.

Lemma syscalls_records (n : nat) (l lvl : level) (msg : log_msg) :
  syscalls (records n l lvl msg) = [].
Proof.
  unfold records. case_match; [| done].
  unfold syscalls. induction n as [|n IH]; [done |].
  cbn [replicate]. rewrite filter_cons. by case_decide.
Qed.

Lemma syscalls_announced (args : Namespace) (argv : list string) :
  syscalls (announced args argv) = [].
Proof.
  unfold announced. by rewrite !syscalls_app, !syscalls_records.
Qed.

(** ** The command line *)


(** X2.  The level the logger is left at is decided by the count of [-v]
    flags alone: more flags never make it less verbose, and from three
    flags on it is [DEBUG]. *)
Theorem X2_more_flags_never_less_verbose (args1 args2 : Namespace)
    (f1 f2 : filesystem) (argv1 argv2 : list string) :
  (args_verbose args1 ≤ args_verbose args2)%nat →
  let l1 := log_level (run (Parsed args1) f1 argv1).2 in
  let l2 := log_level (run (Parsed args2) f2 argv2).2 in
  level_no l2 ≤ level_no l1
  ∧ ((3 ≤ args_verbose args1)%nat → l1 = DEBUG ∧ l2 = DEBUG).
Proof.
  intros Hle l1 l2. subst l1 l2. rewrite !run_Parsed. cbn zeta.
  destruct (exists_ f1 _), (exists_ f2 _); cbn.
  all: destruct (args_verbose args1) as [|[|[|[|n1]]]];
    destruct (args_verbose args2) as [|[|[|[|n2]]]]; cbn; split; lia || done.
Qed.

(** X2 with three flags against five. *)
Lemma X2_more_flags_witness :
  let flags (n : nat) :=
    {| args_overwrite := false; args_parallel_jobs := 4;
       args_mapfile := "map.csv"; args_output_dir := "./out";
       args_recode := false; args_verbose := n; args_ffmpeg := None;
       args_ffmpeg_options := EmptyString |} in
  let l1 := log_level (run (Parsed (flags 3%nat)) Scenario.media []).2 in
  let l2 := log_level (run (Parsed (flags 5%nat)) Scenario.bare []).2 in
  level_no l2 ≤ level_no l1 ∧ l1 = DEBUG ∧ l2 = DEBUG.
Proof.
  intros flags l1 l2.
  destruct (X2_more_flags_never_less_verbose
              (flags 3%nat) (flags 5%nat) Scenario.media Scenario.bare [] []
              ltac:(cbn; lia)) as [Hle Hsat].
  exact (conj Hle (Hsat ltac:(cbn; lia))).
Defined.

(** ** What a run writes to the log *)

Ltac split_trace H :=
  repeat match type of H with
         | _ ∈ _ ++ _ => apply elem_of_app in H as [H | H]
         | _ ∈ _ :: _ => apply elem_of_cons in H as [H | H]
         | _ ∈ [] => by apply elem_of_nil in H
         end.

Ltac trace_cases H :=
  split_trace H; first [discriminate H | injection H; intros; subst].

(** X3.  In a run whose command line parses, no record below the level
    chosen by [-v] is written; the "Log level" record appears from two
    flags on, the debug records from three on.  Whatever the flags, when
    [exists()] of the map file path returns [True] the errors reported are
    exactly "No files to encode.", and when it returns [False] they are
    exactly "Map file ... does not exist". *)
Theorem X3_log_follows_verbosity (args : Namespace) (f : filesystem)
    (argv : list string) :
  let t := trace (run (Parsed args) f argv).2 in
  (∀ lvl msg, Logged lvl msg ∈ t →
     level_no (SDCardWriter.verbosity (args_verbose args)) ≤ level_no lvl)
  ∧ ((∃ msg, Logged INFO msg ∈ t) ↔ (2 ≤ args_verbose args)%nat)
  ∧ ((∃ msg, Logged DEBUG msg ∈ t) ↔ (3 ≤ args_verbose args)%nat)
  ∧ (exists_ f (Path (args_mapfile args)) = true →
     ∀ msg, Logged ERROR msg ∈ t ↔ msg = Text "No files to encode.")
  ∧ (exists_ f (Path (args_mapfile args)) = false →
     ∀ msg, Logged ERROR msg ∈ t ↔ msg = missing_message (args_mapfile args)).
Proof.
  intros t. subst t. rewrite run_Parsed. cbn zeta.
  unfold at_load, announced.
  destruct (args_verbose args) as [|[|[|[|n]]]];
    destruct (exists_ f (Path (args_mapfile args))); cbn.
  all: split_and!.
  all: try (intros lvl msg H; trace_cases H; cbn; lia).
  all: try (split; [by intros [msg H]; trace_cases H | lia]).
  all: try (split; [lia | intros _; eexists; rewrite !elem_of_cons; eauto 10]).
  all: try (by intros [=]).
  all: intros _ msg; split;
    [by intros H; trace_cases H
    | intros ->; rewrite !elem_of_cons; eauto 10].
Qed.

(** ** The instance after a run *)

(** X4.  The options of the command line are stored in the instance before
    the map file is looked at, so they are there even in a run that stops
    at a missing map file; [files_to_encode] is assigned only when the map
    file exists, and [config] is never assigned. *)
Theorem X4_attributes_after_run (args : Namespace) (f : filesystem)
    (argv : list string) :
  let a := self (run (Parsed args) f argv).2 in
  self_recode a = args_recode args
  ∧ self_overwrite a = Some (args_overwrite args)
  ∧ self_ffmpeg_bin a = Some (args_ffmpeg args)
  ∧ self_ffmpeg_options a = Some (args_ffmpeg_options args)
  ∧ self_jobs_max a = Some (args_parallel_jobs args)
  ∧ self_config a = None
  ∧ self_files_to_encode a
    = (if exists_ f (Path (args_mapfile args)) then Some [] else None).
Proof.
  intros a. subst a. rewrite run_Parsed. cbn zeta.
  by destruct (exists_ f (Path (args_mapfile args))).
Qed.

(** ** What a run asks of the operating system *)

(** X5.  A run whose command line parses makes one existence check, of the
    map file, and at most one [mkdir], of the output directory; the [mkdir]
    comes after the check and only when the map file exists. *)
Theorem X5_system_calls_of_a_run (args : Namespace) (f : filesystem)
    (argv : list string) :
  syscalls (trace (run (Parsed args) f argv).2) =
    if exists_ f (Path (args_mapfile args))
    then [Stat (Path (args_mapfile args)); Mkdir (Path (args_output_dir args))]
    else [Stat (Path (args_mapfile args))].
Proof.
  rewrite run_Parsed. cbn zeta.
  destruct (exists_ f (Path (args_mapfile args)));
    cbn [snd trace with_trace at_load].
  all: by rewrite !syscalls_app, syscalls_announced, ?syscalls_records.
Qed.

(** ** What a run does to the file system *)

(** X6.  A run never removes or changes an entry of the file system: what
    was at a path before is there afterwards, however the run ends. *)
Theorem X6_run_keeps_entries (outcome : parse_args_outcome) (f : filesystem)
    (argv : list string) (q : path) (n : node) :
  f !! q = Some n → fs (run outcome f argv).2 !! q = Some n.
Proof.
  intros Hq. rewrite run_fs.
  destruct outcome as [args | code | error]; [| done | done].
  case_match; [| done]. by eapply mkdir_keeps.
Qed.

(** X6 on a media file of the scenario. *)
Lemma X6_run_keeps_entries_witness :
  fs (run (Parsed Scenario.args) Scenario.media []).2 !! ["src"; "a.wav"]
  = Some (File "a").
Proof.
  apply (X6_run_keeps_entries (Parsed Scenario.args) Scenario.media []).
  reflexivity.
Defined.

(** X7.  The only entries a run adds are directories at the output path or
    at an ancestor of it: no regular file is ever created, and nothing
    appears elsewhere. *)
Theorem X7_run_adds_only_output_directories (args : Namespace)
    (f : filesystem) (argv : list string) (q : path) (n : node) :
  fs (run (Parsed args) f argv).2 !! q = Some n →
  f !! q = Some n
  ∨ ((∃ writable, n = Dir writable)
     ∧ q `prefix_of` Path (args_output_dir args)).
Proof.
  rewrite run_fs. case_match; [| by left].
  intros Hq. by eapply mkdir_adds_ancestor.
Qed.

(** X7 on the directory the scenario run makes. *)
Lemma X7_run_adds_only_output_directories_witness :
  Scenario.media !! ["out"] = Some (Dir true)
  ∨ ((∃ writable, Dir true = Dir writable) ∧ ["out"] `prefix_of` Path "./out").
Proof.
  apply (X7_run_adds_only_output_directories Scenario.args Scenario.media []).
  vm_compute. reflexivity.
Defined.

(** X9.  Running the script again after a run that ended with status 0
    ends with status 0 again and changes nothing: the map file is still
    there and the output directory now exists. *)
Theorem X9_second_run_changes_nothing (args : Namespace) (f : filesystem)
    (argv argv' : list string) :
  status (Parsed args) f argv = 0 →
  let f' := fs (run (Parsed args) f argv).2 in
  status (Parsed args) f' argv' = 0
  ∧ fs (run (Parsed args) f' argv').2 = f'.
Proof.
  rewrite run_status. intros Hok f'. subst f'.
  rewrite run_status, !run_fs.
  destruct (exists_ f (Path (args_mapfile args))) eqn:Hex; [| done].
  destruct (mkdir f (Path (args_output_dir args)) true true)
    as [[e|] f'] eqn:Hmk; [done |]. cbn.
  assert (exists_ f' (Path (args_mapfile args)) = true) as ->.
  { apply exists_is_Some in Hex as [n Hn]. apply exists_is_Some. exists n.
    by apply (mkdir_keeps _ _ _ _ _ _ _ Hmk). }
  by rewrite (mkdir_existing_dir _ _ _ (mkdir_ok_is_dir _ _ _ _ _ Hmk)).
Qed.

(** X9 on the scenario. *)
Lemma X9_second_run_changes_nothing_witness :
  let f' := fs (run (Parsed Scenario.args) Scenario.media []).2 in
  status (Parsed Scenario.args) f' [] = 0
  ∧ fs (run (Parsed Scenario.args) f' []).2 = f'.
Proof.
  apply (X9_second_run_changes_nothing Scenario.args Scenario.media [] []).
  reflexivity.
Defined.

Lemma mkdir_over_file (f : filesystem) (p : path) (parents exist_ok : bool)
    (c : string) :
  f !! p = Some (File c) →
  mkdir f p parents exist_ok = (Some FileExistsError, f).
Proof.
  intros Hp. simp mkdir.
  assert (os_mkdir f p = inl FileExistsError) as ->.
  { unfold os_mkdir. by rewrite Hp. }
  cbn. unfold except_OSError, is_dir. rewrite Hp. by destruct exist_ok.
Qed.

(** X10.  [exist_ok] covers an existing directory only: when the map file
    exists and the output path is taken by a regular file, [mkdir] raises
    [FileExistsError], nothing catches it, and the run ends with status 1
    and the file system as it was. *)
Theorem X10_output_path_is_a_file (args : Namespace) (f : filesystem)
    (argv : list string) (c : string) :
  is_Some (f !! Path (args_mapfile args)) →
  f !! Path (args_output_dir args) = Some (File c) →
  let r := run (Parsed args) f argv in
  r.1 = Raised (Uncaught FileExistsError)
  ∧ exit_status r.1 = 1
  ∧ fs r.2 = f.
Proof.
  intros Hex%exists_is_Some Hout r. subst r.
  rewrite run_Parsed. cbn zeta. rewrite Hex.
  by rewrite (mkdir_over_file _ _ _ _ _ Hout).
Qed.

(** X10 where [out] is a regular file. *)
Lemma X10_output_path_is_a_file_witness :
  let r := run (Parsed Scenario.args) Scenario.blocked [] in
  r.1 = Raised (Uncaught FileExistsError)
  ∧ exit_status r.1 = 1
  ∧ fs r.2 = Scenario.blocked.
Proof.
  apply (X10_output_path_is_a_file Scenario.args Scenario.blocked []
           EmptyString).
  - vm_compute. eauto.
  - reflexivity.
Defined.

(** X11.  When the map file exists, the output path is absent and its
    parent is a directory without write permission, [mkdir] raises
    [PermissionError], nothing catches it, and the run ends with status 1
    and the file system as it was. *)
Theorem X11_output_parent_not_writable (args : Namespace) (f : filesystem)
    (argv : list string) :
  is_Some (f !! Path (args_mapfile args)) →
  f !! Path (args_output_dir args) = None →
  f !! parent (Path (args_output_dir args)) = Some (Dir false) →
  let r := run (Parsed args) f argv in
  r.1 = Raised (Uncaught PermissionError)
  ∧ exit_status r.1 = 1
  ∧ fs r.2 = f.
Proof.
  intros Hex%exists_is_Some Hout Hpar r. subst r.
  rewrite run_Parsed. cbn zeta. rewrite Hex.
  by rewrite (mkdir_unwritable _ _ _ _ Hout Hpar).
Qed.

(** X11 in a working directory that is not writable. *)
Lemma X11_output_parent_not_writable_witness :
  let r := run (Parsed Scenario.args) Scenario.readonly [] in
  r.1 = Raised (Uncaught PermissionError)
  ∧ exit_status r.1 = 1
  ∧ fs r.2 = Scenario.readonly.
Proof.
  apply (X11_output_parent_not_writable Scenario.args Scenario.readonly []).
  - vm_compute. eauto.
  - reflexivity.
  - reflexivity.
Defined.

(** ** The initializer *)

Lemma not_main (name : string) :
  name ≠ "__main__" → String.eqb name "__main__" = false.
Proof. by intros ?%String.eqb_neq. Qed.

(** [argparser] leaves the handlers of the logger alone. *)
Lemma argparser_handlers (outcome : parse_args_outcome) (w : process) :
  log_handlers (SDCardWriter.argparser outcome w).2 = log_handlers w.
Proof.
  unfold SDCardWriter.argparser, Path_mkdir, mbind, M_bind, get.
  destruct outcome as [args | code | error]; cbn; [| done | done].
  rewrite load_mapfile_eq. cbn.
  destruct (exists_ (fs w) (Path (args_mapfile args))); cbn; [| done].
  by destruct (mkdir (fs w) (Path (args_output_dir args)) true true)
       as [[e|] f'].
Qed.

(** X12.  The initializer attaches a stream handler only when the logger
    has none, whatever else it goes on to do: afterwards the logger has one
    handler if it had none and as many as before otherwise.  In a module
    that imports the script ([__name__] is not "__main__") constructing an
    instance does nothing else, and constructing a second one changes
    nothing at all, so log records are never doubled. *)
Theorem X12_init_attaches_one_handler (name : string)
    (outcome : parse_args_outcome) (w : process) :
  log_handlers (SDCardWriter.__init__ name outcome w).2
    = Nat.max 1 (log_handlers w)
  ∧ (name ≠ "__main__" →
     let r := SDCardWriter.__init__ name outcome w in
     r.1 = Returned tt
     ∧ fs r.2 = fs w ∧ trace r.2 = trace w ∧ self r.2 = self w
     ∧ SDCardWriter.__init__ name outcome r.2 = (Returned tt, r.2)).
Proof.
  split.
  - unfold SDCardWriter.__init__, SDCardWriter.main, mbind, M_bind, get.
    cbn.
    destruct (log_handlers w) as [|h] eqn:Hh; cbn.
    all: destruct (String.eqb name "__main__"); cbn;
      [| by rewrite ?Hh].
    all: match goal with
         | |- context [SDCardWriter.argparser ?o ?w1] =>
             pose proof (argparser_handlers o w1) as Hkeep;
             destruct (SDCardWriter.argparser o w1) as [[[] | e] w2]
         end.
    all: cbn in *; by rewrite Hkeep, ?Hh.
  - intros Hname%not_main r. subst r.
    unfold SDCardWriter.__init__, mbind, M_bind, get. cbn. rewrite Hname.
    by destruct (log_handlers w) as [|h] eqn:Hh; cbn; rewrite ?Hh.
Qed.

(** X12 for a module named [tools] importing the script. *)
Lemma X12_init_attaches_one_handler_witness :
  let w := boot Scenario.media [] in
  let r := SDCardWriter.__init__ "tools" (Parsed Scenario.args) w in
  r.1 = Returned tt
  ∧ fs r.2 = fs w ∧ trace r.2 = trace w ∧ self r.2 = self w
  ∧ SDCardWriter.__init__ "tools" (Parsed Scenario.args) r.2
    = (Returned tt, r.2).
Proof.
  apply (X12_init_attaches_one_handler "tools" (Parsed Scenario.args)
           (boot Scenario.media [])).
  discriminate.
Defined.

(** ** [_load_mapfile] in any process *)


(** ** [_load_config] *)

Section load_config_facts.

Variable parse_ini : string → option sections.
Variable render : config_value → string.

(** The ways [_load_config] ends. *)
Lemma load_config_eq (cf : string) (fatal_if_missing : bool) (w : process) :
  _load_config parse_ini render cf fatal_if_missing w =
    match fs w !! Path cf with
    | Some (File text) =>
        match parse_ini text with
        | Some read =>
            (inr (ConfigParser read),
             config_returning (render (ConfigParser read))
               (config_opened cf w))
        | None => (inl (NameError "printerr"), config_opened cf w)
        end
    | _ =>
        (inr (ConfigParser []),
         config_returning (render (ConfigParser [])) (config_opened cf w))
    end.
Proof.
  unfold _load_config, ConfigParser_read, lift, mbind, MX_bind. cbn.
  destruct (fs w !! Path cf) as [[text | b] |]; cbn; try done.
  by destruct (parse_ini text).
Qed.

(** X14.  The flag [fatal_if_missing] has no effect: with it or without,
    [_load_config] does the same thing.  It never leaves through
    [sys.exit] and never returns the empty dict of its [except] clause: it
    returns a [ConfigParser], or the call of the undefined [printerr]
    raises [NameError]. *)
Theorem X14_fatal_flag_has_no_effect (cf : string) (w : process) :
  _load_config parse_ini render cf true w
  = _load_config parse_ini render cf false w
  ∧ ∀ fatal_if_missing,
      let r := _load_config parse_ini render cf fatal_if_missing w in
      r.1 = inl (NameError "printerr") ∨ ∃ read, r.1 = inr (ConfigParser read).
Proof.
  split; [by rewrite !load_config_eq |].
  intros fatal r. subst r. rewrite load_config_eq.
  destruct (fs w !! Path cf) as [[text | b] |]; cbn; eauto.
  destruct (parse_ini text); cbn; eauto.
Qed.

(** X15.  A configuration file that is not there, or is a directory, is no
    error, even with [fatal_if_missing] set: the result is a [ConfigParser]
    that has read nothing. *)
Theorem X15_missing_config_is_not_an_error (cf : string)
    (fatal_if_missing : bool) (w : process) :
  (∀ text, fs w !! Path cf ≠ Some (File text)) →
  (_load_config parse_ini render cf fatal_if_missing w).1
  = inr (ConfigParser []).
Proof.
  intros Hnone. rewrite load_config_eq.
  destruct (fs w !! Path cf) as [[text | b] |]; try done.
  by destruct (Hnone text).
Qed.



(** X18.  However it ends, [_load_config] opens the configuration file
    once and does nothing else to the outside: the file system, the
    instance ([self.config] included) and the logger are as before, and the
    only records it writes are debug records. *)
Theorem X18_load_config_frame (cf : string) (fatal_if_missing : bool)
    (w : process) :
  let r := _load_config parse_ini render cf fatal_if_missing w in
  fs r.2 = fs w ∧ self r.2 = self w
  ∧ log_level r.2 = log_level w ∧ log_handlers r.2 = log_handlers w
  ∧ syscalls (trace r.2) = syscalls (trace w) ++ [Open (Path cf)]
  ∧ ∀ lvl msg, Logged lvl msg ∈ trace r.2 →
      Logged lvl msg ∈ trace w ∨ lvl = DEBUG.
Proof.
  intros r. subst r. rewrite load_config_eq.
  destruct (fs w !! Path cf) as [[text | b] |]; [destruct (parse_ini text) | |].
  all: cbn; split_and!; try done.
  all: try (by rewrite !syscalls_app, !syscalls_records, ?app_nil_r).
  all: intros lvl msg H; split_trace H; auto.
  all: try (apply records_logged in H; injection H as -> _; by right).
  all: discriminate H.
Qed.

End load_config_facts.

(** X15 in a working directory without a configuration file, asked to be
    fatal. *)
Lemma X15_missing_config_witness :
  (_load_config ConfigScenario.parse_ini ConfigScenario.render
     "creatuino.ini" true (boot Scenario.bare [])).1
  = inr (ConfigParser []).
Proof.
  apply (X15_missing_config_is_not_an_error
           ConfigScenario.parse_ini ConfigScenario.render
           "creatuino.ini" true (boot Scenario.bare [])).
  intros text. vm_compute. discriminate.
Defined.


